(** * Disk-usage health check: the poller, the state store and the HTTP handler

    A shallow embedding of [main.go].  The program polls [du] for one path,
    keeps the last measurement in a map guarded by a read/write mutex and
    answers HTTP requests with 200, 500 or 503 depending on the cached value,
    the threshold flag and the override flag.

    Go values are represented as follows.
    - [uint64] is [N]; the program only stores and compares such values, the
      upper bound matters in the flag default alone.
    - [int], [int64] and [time.Duration] are [Z] with two's complement
      wrap-around written out ([wrap64]).
    - [string] is [string] (a sequence of bytes), [map[string]uint64] is
      [gmap string N], a channel that is only sent to is the list of values
      sent so far.
    - [log.Fatal], which prints and calls [os.Exit(1)], and a run-time panic
      end the computation: see [Proc]. *)

From stdpp Require Import gmap strings pretty.
From Stdlib Require Import QArith Ascii.

Local Open Scope Z_scope.

(** ** Machine integers and durations *)

Module Go.

Definition wrap64 (z : Z) : Z := (z + 2 ^ 63) mod 2 ^ 64 - 2 ^ 63.

Definition MaxInt64 : Z := 2 ^ 63 - 1.
Definition MinInt64 : Z := - 2 ^ 63.
Definition MaxUint64 : Z := 2 ^ 64 - 1.

(** [time.Duration] is an [int64] count of nanoseconds. *)
Definition Nanosecond : Z := 1.
Definition Second : Z := 1000000000 * Nanosecond.
Definition Minute : Z := 60 * Second.

(** An untyped constant expression is evaluated exactly; the conversion
    [uint64(c)] of a constant is accepted by the compiler only when [c] is
    an integer in range ([None] stands for the compile error). *)
Definition uint64_of_const (c : Q) : option N :=
  let r := Qred c in
  if decide (Qden r = 1%positive ∧ 0 <= Qnum r <= MaxUint64)
  then Some (Z.to_N (Qnum r)) else None.

(** The line feed that [fmt.Fprintln] appends and that ["\n"] denotes. *)
Definition LF : string := String "010"%char EmptyString.
Definition TAB : string := String "009"%char EmptyString.

(** [%v] of a [uint64], of a [bool] and of a [string]. *)
Definition fmt_uint64 (n : N) : string := pretty n.
Definition fmt_bool (b : bool) : string := if b then "true" else "false".
Definition fmt_string (s : string) : string := s.

(** How a piece of sequential code ends: it returns, the process exits
    ([os.Exit], reached through [log.Fatal]), or the goroutine panics. *)
Inductive Proc (A : Type) : Type :=
| Returned (a : A)
| Exited (code : Z) (logged : string)
| Panicked (msg : string).
Arguments Returned {A} a.
Arguments Exited {A} code logged.
Arguments Panicked {A} msg.

Definition bind {A B} (c : Proc A) (k : A → Proc B) : Proc B :=
  match c with
  | Returned a => k a
  | Exited code logged => Exited code logged
  | Panicked msg => Panicked msg
  end.

(** [log.Fatal(err)]: print the error, then [os.Exit(1)]. *)
Definition log_Fatal (err : string) : Proc unit := Exited 1 err.

End Go.

#[global] Instance Proc_ret : MRet Go.Proc := @Go.Returned.
#[global] Instance Proc_bind : MBind Go.Proc := λ A B k c, Go.bind c k.

(** ** Constants and flags ([main.go], lines 15-27) *)

Definition numPollers : Z := 1.
Definition pollInterval : Z := 60 * Go.Second.
Definition statusInterval : Z := 1 * Go.Minute.
Definition errTimeout : Z := 10 * Go.Second.

(** The default of the [threshold] flag is [uint64(1.074*10E11)].  The
    literal [10E11] is ten times ten to the eleventh. *)
Definition threshold_const : Q := ((1074 # 1000) * (10 * 10 ^ 11))%Q.
Definition threshold_default : option N := Go.uint64_of_const threshold_const.

(** The values of the four flags after [flag.Parse]. *)
Record Flags := mkFlags {
  threshold : N;
  addr : string;
  path : string;
  override : bool
}.

(** ** [State], [diskStatus] and the mutex (lines 29-41) *)

Record State := mkState {
  st_path : string;
  st_bytes : N
}.

(** [sync.RWMutex] as seen between two critical sections: whether a writer
    holds it and how many readers do. *)
Record RWMutex := mkRWMutex {
  writer : bool;
  readers : nat
}.

Record diskStatus := mkDiskStatus {
  state : gmap string N;
  mu : RWMutex
}.

Definition unlocked : RWMutex := mkRWMutex false 0.

(** Lock operations return [None] where the caller would have to wait, and
    where Go reports a fatal misuse (unlocking a mutex that is not held). *)
Definition RLock (ds : diskStatus) : option diskStatus :=
  if writer (mu ds) then None
  else Some (mkDiskStatus (state ds) (mkRWMutex false (S (readers (mu ds))))).

Definition RUnlock (ds : diskStatus) : option diskStatus :=
  match readers (mu ds) with
  | O => None
  | S n => Some (mkDiskStatus (state ds) (mkRWMutex (writer (mu ds)) n))
  end.

Definition Lock (ds : diskStatus) : option diskStatus :=
  match writer (mu ds), readers (mu ds) with
  | false, O => Some (mkDiskStatus (state ds) (mkRWMutex true O))
  | _, _ => None
  end.

Definition Unlock (ds : diskStatus) : option diskStatus :=
  if writer (mu ds)
  then Some (mkDiskStatus (state ds) (mkRWMutex false (readers (mu ds))))
  else None.

(** A map read [m[k]] yields the zero value for a missing key. *)
Definition map_index (m : gmap string N) (k : string) : N := default 0%N (m !! k).

(** ** The part of [net/http] the handler uses *)

Module http.

Definition StatusOK : N := 200.
Definition StatusInternalServerError : N := 500.
Definition StatusServiceUnavailable : N := 503.

Record Request := mkRequest {
  Method : string;
  URL : string
}.

(** What a handler leaves in its [ResponseWriter]: status code and body. *)
Record Response := mkResponse {
  status : N;
  body : string
}.

(** [http.Error(w, error, code)] writes the header with [code] and prints
    [error] with [fmt.Fprintln], that is, followed by a line feed. *)
Definition Error (error : string) (code : N) : Response :=
  mkResponse code (error +:+ Go.LF).

(** Printing to a [ResponseWriter] whose header was not written sends
    [StatusOK] first. *)
Definition Fprint (text : string) : Response := mkResponse StatusOK text.

End http.

(** ** [StateMonitor] (lines 50-88) and [logState] (lines 91-99) *)

(** The memory a handler can reach: the package-level flags and the
    [diskStatus] captured by the closure. *)
Record Memory := mkMemory {
  flags : Flags;
  disk : diskStatus
}.

(** The [switch] of the handler (lines 73-81). *)
Definition respond (fl : Flags) (bytes : N) : http.Response :=
  if (bytes =? 0)%N then
    http.Error "Disk status not cached yet" http.StatusServiceUnavailable
  else if (threshold fl <? bytes)%N && Bool.eqb (override fl) false then
    let err := "ERROR: Bytes exceed threshold (" +:+ Go.fmt_uint64 bytes
               +:+ "/" +:+ Go.fmt_uint64 (threshold fl) +:+ ")" in
    http.Error err http.StatusInternalServerError
  else
    http.Fprint ("OK: " +:+ Go.fmt_string (path fl) +:+ " is "
                 +:+ Go.fmt_uint64 bytes +:+ " bytes; override set to "
                 +:+ Go.fmt_bool (override fl) +:+ Go.LF).

(** The handler registered for ["/"], which the mux selects for every
    request.  It yields the response and the memory it leaves; the
    deferred [RUnlock] runs last. *)
Definition handler (r : http.Request) (σ : Memory)
  : option (http.Response * Memory) :=
  ds1 ← RLock (disk σ);
  let bytes := map_index (state ds1) (path (flags σ)) in
  let w := respond (flags σ) bytes in
  ds2 ← RUnlock ds1;
  Some (w, mkMemory (flags σ) ds2).

(** [strings.Contains]: [sub] occurs in [s]. *)
Definition contains (s sub : string) : Prop :=
  ∃ pre post, s = pre +:+ sub +:+ post.

(** [logState]: one header line, then one line per entry.  Go leaves the
    order of a [range] over a map unspecified; [map_to_list] fixes one. *)
Definition logState (ds : diskStatus) : option (list string * diskStatus) :=
  ds1 ← RLock ds;
  let lines :=
    (λ kv : string * N, " " +:+ kv.1 +:+ " " +:+ Go.fmt_uint64 kv.2)
      <$> map_to_list (state ds1) in
  ds2 ← RUnlock ds1;
  Some ("Current state:" :: lines, ds2).

(** The two cases of the [select] in the monitor's loop. *)
Inductive Trigger :=
| Tick
| Update (s : State).

(** The store and the lines logged so far. *)
Record Monitor := mkMonitor {
  store : diskStatus;
  logged : list string
}.

Definition monitor_step (m : Monitor) (t : Trigger) : option Monitor :=
  match t with
  | Tick =>
      '(lines, ds) ← logState (store m);
      Some (mkMonitor ds (logged m ++ lines))
  | Update s =>
      ds1 ← Lock (store m);
      let ds2 := mkDiskStatus (<[st_path s := st_bytes s]> (state ds1)) (mu ds1) in
      ds3 ← Unlock ds2;
      Some (mkMonitor ds3 (logged m))
  end.

Fixpoint monitor_run (m : Monitor) (ts : list Trigger) : option Monitor :=
  match ts with
  | [] => Some m
  | t :: ts' => m' ← monitor_step m t; monitor_run m' ts'
  end.

(** [StateMonitor] starts from an empty map. *)
Definition monitor_init : Monitor := mkMonitor (mkDiskStatus ∅ unlocked) [].

(** The measurement events among the triggers, in receipt order. *)
Definition events (ts : list Trigger) : list State :=
  omap (λ t, match t with Tick => None | Update s => Some s end) ts.

(** ** [Path], [Poll], [Sleep] and [Poller] (lines 103-149) *)

Record Path := mkPath {
  p_path : string;
  errCount : Z
}.

(** [r.errCount++] and [r.errCount = 0] on an [int] of 64 bits. *)
Definition incr_errCount (r : Path) : Path :=
  mkPath (p_path r) (Go.wrap64 (errCount r + 1)).

Definition reset_errCount (r : Path) : Path := mkPath (p_path r) 0.

(** [s[0]] on a slice: a run-time panic when the slice is empty. *)
Definition index0 (l : list string) : Go.Proc string :=
  match l with
  | x :: _ => mret x
  | [] => Go.Panicked "index out of range [0] with length 0"
  end.

(** The delay [Sleep] passes to [time.Sleep]:
    [pollInterval + errTimeout*time.Duration(r.errCount)], in [int64]. *)
Definition Sleep_delay (r : Path) : Z :=
  Go.wrap64 (pollInterval + Go.wrap64 (errTimeout * Go.wrap64 (errCount r))).

(** The largest error count for which that expression does not overflow:
    the quotient of [MaxInt64 - pollInterval] by [errTimeout]. *)
Definition max_linear_errCount : Z := (Go.MaxInt64 - pollInterval) / errTimeout.

(** [time.Sleep] returns at once for a delay that is zero or negative.
    [Sleep] yields the time spent and the channel after [done <- r]. *)
Definition Sleep (r : Path) (done : list Path) : Z * list Path :=
  (Z.max 0 (Sleep_delay r), done ++ [r]).

Section Poll.

(** The collaborators outside the repository: the command run by
    [exec.Command(name, args...).Output()], which yields the bytes written
    and an optional error, and three library functions. *)
Variable Output : string → list string → string * option string.
Variable TrimSpace : string → string.
Variable Split : string → string → list string.
Variable ParseUint : string → Z → Z → N * option string.

(** [Poll] follows the source statement by statement, the increments
    written after [log.Fatal] included. *)
Definition Poll (r : Path) : Go.Proc (N * Path) :=
  let '(out, err) := Output "du" ["-sbx"; p_path r] in
  r ← match err with
      | Some e => _ ← Go.log_Fatal e; mret (incr_errCount r)
      | None => mret r
      end;
  let s := out in
  let s := TrimSpace s in
  bytesStr ← index0 (Split s Go.TAB);
  let '(bytes, err) := ParseUint bytesStr 0 64 in
  r ← match err with
      | Some e => _ ← Go.log_Fatal e; mret (incr_errCount r)
      | None => mret r
      end;
  let r := reset_errCount r in
  mret (bytes, r).

(** One iteration of the loop of [Poller]: the event sent on [status] and
    the path sent on [out]. *)
Definition Poller_iter (r : Path) : Go.Proc (State * Path) :=
  '(bytes, r') ← Poll r;
  mret (mkState (p_path r') bytes, r').

End Poll.

(** ** The most recent event for a path *)

(** The last event, in receipt order, whose path is [p]. *)
Definition last_event (p : string) (evs : list State) : option State :=
  last (filter (λ s, st_path s = p) evs).

(** ** A measurement source to run the poller on

    Executable stand-ins for the collaborators of [Poll].  They agree with
    the Go library on the inputs used below: [TrimSpace] on strings of
    7-bit characters, [Split] on a separator of one byte, [ParseUint] with
    base 0 on [0] and on decimal numerals that do not start with a zero
    (numerals with a base prefix are rejected here). *)

Module Sample.

Fixpoint trim_left (s : string) : string :=
  match s with
  | String c s' => if Ascii.is_space c then trim_left s' else s
  | EmptyString => EmptyString
  end.

Fixpoint trim_right (s : string) : string :=
  match s with
  | String c s' =>
      match trim_right s' with
      | EmptyString => if Ascii.is_space c then EmptyString else String c EmptyString
      | t => String c t
      end
  | EmptyString => EmptyString
  end.

Definition TrimSpace (s : string) : string := trim_right (trim_left s).

(** The fields of [s] between occurrences of the byte [sep]. *)
Fixpoint fields (sep : ascii) (s : string) : list string :=
  match s with
  | EmptyString => [EmptyString]
  | String c s' =>
      if Ascii.eqb c sep then EmptyString :: fields sep s'
      else match fields sep s' with
           | f :: fs => String c f :: fs
           | [] => [String c EmptyString]
           end
  end.

Definition Split (s sep : string) : list string :=
  match sep with
  | String c EmptyString => fields c s
  | _ => [s]
  end.

Definition digit (c : ascii) : option N :=
  let n := N_of_ascii c in
  if ((48 <=? n) && (n <=? 57))%N then Some (n - 48)%N else None.

Fixpoint numeral (s : string) (acc : N) : option N :=
  match s with
  | EmptyString => Some acc
  | String c s' => d ← digit c; numeral s' (10 * acc + d)%N
  end.

Definition ParseUint (s : string) (base bitSize : Z) : N * option string :=
  match s with
  | EmptyString => (0%N, Some "strconv.ParseUint: invalid syntax")
  | String "0" (String _ _) => (0%N, Some "strconv.ParseUint: invalid syntax")
  | _ =>
      match numeral s 0 with
      | None => (0%N, Some "strconv.ParseUint: invalid syntax")
      | Some n =>
          if (Z.of_N n <=? Go.MaxUint64)%Z then (n, None)
          else (Z.to_N Go.MaxUint64, Some "strconv.ParseUint: value out of range")
      end
  end.

(** A machine where [/mnt/storage] holds 4096 bytes, [/missing] does not
    exist and [du] answers for [/garbled] with text that is no number. *)
Definition Output (name : string) (args : list string) : string * option string :=
  match args with
  | [_; "/mnt/storage"] => ("4096" +:+ Go.TAB +:+ "/mnt/storage" +:+ Go.LF, None)
  | [_; "/garbled"] => ("n/a" +:+ Go.TAB +:+ "/garbled" +:+ Go.LF, None)
  | _ => (EmptyString, Some "exit status 1")
  end.

Definition Poll : Path → Go.Proc (N * Path) :=
  Poll Output TrimSpace Split ParseUint.

Definition Poller_iter : Path → Go.Proc (State * Path) :=
  Poller_iter Output TrimSpace Split ParseUint.

Definition request : http.Request := http.mkRequest "GET" "/".

Definition default_flags (t : N) (o : bool) : Flags :=
  mkFlags t ":8080" "/mnt/storage" o.

(** A memory with the given flags and cached measurements, the mutex
    being free. *)
Definition memory (fl : Flags) (cached : gmap string N) : Memory :=
  mkMemory fl (mkDiskStatus cached unlocked).

End Sample.

(** ** The loop of [Poller] (lines 143-149) and the wiring of [main]
    (lines 151-177) *)

(** What [exec.Command(name, args...).Output()] answers at one moment: the
    answer of [du] for a path changes from one poll to the next. *)
Definition Exec : Type := string → list string → string * option string.

(** The channels [out] and [status] of [Poller], as the values sent on
    them so far. *)
Record Sent := mkSent {
  sent_out : list Path;
  sent_status : list State
}.

(** The one path in circulation, the monitor, and the time spent in
    [Sleep] so far. *)
Record System := mkSystem {
  monitor : Monitor;
  pending : Path;
  slept : Z
}.

(** [main] sends [&Path{path: *path}] to [pending]; [StateMonitor] has
    just made its map. *)
Definition main_init (fl : Flags) : System :=
  mkSystem monitor_init (mkPath (path fl) 0) 0.

Section Pipeline.

Variable TrimSpace : string → string.
Variable Split : string → string → list string.
Variable ParseUint : string → Z → Z → N * option string.

(** [for r := range in]: each path received is polled, with the answer the
    command gives at that moment; the event goes to [status], the path to
    [out].  The loop ends when [in] is closed and drained. *)
Fixpoint Poller (inp : list (Exec * Path)) (ch : Sent) : Go.Proc Sent :=
  match inp with
  | [] => mret ch
  | (ex, r) :: rest =>
      '(s, r') ← Poller_iter ex TrimSpace Split ParseUint r;
      Poller rest (mkSent (sent_out ch ++ [r']) (sent_status ch ++ [s]))
  end.

(** One turn of the path through [main]'s wiring with its single poller:
    [Poller] takes it from [pending] and polls it, the monitor receives the
    event, [main] receives the path from [complete] and starts [Sleep],
    which puts it back on [pending].  [None] stands for a monitor that has
    to wait for the mutex. *)
Definition cycle (ex : Exec) (sys : System) : Go.Proc (option System) :=
  '(s, r) ← Poller_iter ex TrimSpace Split ParseUint (pending sys);
  mret (m ← monitor_step (monitor sys) (Update s);
        let '(d, ch) := Sleep r [] in
        r' ← head ch;
        Some (mkSystem m r' (slept sys + d))).

(** As many turns as there are answers of the command. *)
Fixpoint cycles (exs : list Exec) (sys : System) : Go.Proc (option System) :=
  match exs with
  | [] => mret (Some sys)
  | ex :: rest =>
      o ← cycle ex sys;
      match o with
      | Some sys' => cycles rest sys'
      | None => mret None
      end
  end.

End Pipeline.

(** Answers of [du] to run the pipeline on. *)

Module SampleRun.

Definition du_reports (n : N) : Exec :=
  λ _ args, (pretty n +:+ Go.TAB +:+ default "" (last args) +:+ Go.LF, None).

Definition du_fails : Exec :=
  λ _ _, (EmptyString, Some "exit status 1").

Definition Poller : list (Exec * Path) → Sent → Go.Proc Sent :=
  Poller Sample.TrimSpace Sample.Split Sample.ParseUint.

Definition cycles : list Exec → System → Go.Proc (option System) :=
  cycles Sample.TrimSpace Sample.Split Sample.ParseUint.

End SampleRun.

(** ** Decimal numerals *)

(** Whether a string consists of decimal digits only, as the [%v] of a
    [uint64] does. *)
Fixpoint all_digits (s : string) : bool :=
  match s with
  | EmptyString => true
  | String c s' =>
      match Ascii.is_nat c with
      | Some _ => all_digits s'
      | None => false
      end
  end.

Example Sample_Poll_ok :
  Sample.Poll (mkPath "/mnt/storage" 3) = Go.Returned (4096%N, mkPath "/mnt/storage" 0).
Proof. reflexivity. Qed.

(** * Properties *)

(** ** The flag default *)

(** C2, as the code has it: the default of the threshold flag is exactly
    1074000000000 bytes, that is 1.074 × 10^12. *)
Theorem threshold_default_value :
  threshold_default = Some 1074000000000%N ∧
  (1074000000000 = 1074 * 10 ^ 9)%N.
Proof. split; reflexivity. Qed.

(** C2, as stated, fails: the default is ten times 1.074 × 10^11, so it is
    not within ten per cent of that value (nor within any tighter bound). *)
Lemma threshold_default_not_1074e8 :
  ∃ t : N, threshold_default = Some t ∧
    t = (10 * 107400000000)%N ∧
    ¬ (9 * 107400000000 ≤ 10 * t ≤ 11 * 107400000000)%N.
Proof.
  exists 1074000000000%N. split; [reflexivity|]. split; [reflexivity|]. lia.
Qed.

(** ** The delay of [Sleep] *)

Lemma wrap64_small (z : Z) :
  Go.MinInt64 <= z <= Go.MaxInt64 → Go.wrap64 z = z.
Proof.
  unfold Go.wrap64, Go.MinInt64, Go.MaxInt64. intros Hz.
  rewrite Z.mod_small; lia.
Qed.

Lemma max_linear_errCount_value : max_linear_errCount = 922337197.
Proof. reflexivity. Qed.

Lemma Sleep_delay_small (r : Path) :
  0 <= errCount r <= max_linear_errCount →
  Sleep_delay r = pollInterval + errTimeout * errCount r.
Proof.
  rewrite max_linear_errCount_value.
  unfold Sleep_delay, pollInterval, errTimeout, Go.Second, Go.Nanosecond.
  intros Hk.
  rewrite (wrap64_small (errCount r)) by (unfold Go.MinInt64, Go.MaxInt64; lia).
  rewrite (wrap64_small (_ * errCount r)) by (unfold Go.MinInt64, Go.MaxInt64; lia).
  apply wrap64_small. unfold Go.MinInt64, Go.MaxInt64. lia.
Qed.

(** C6, as the code has it: for error counts from 0 to 922337197 the delay
    is [pollInterval + errTimeout * k]; on that range it does not decrease
    when the count grows and exceeds the base interval once the count is
    at least 1. *)
Theorem Sleep_delay_linear (r r' : Path) :
  0 <= errCount r →
  errCount r <= errCount r' →
  errCount r' <= max_linear_errCount →
  Sleep_delay r = pollInterval + errTimeout * errCount r ∧
  Sleep_delay r <= Sleep_delay r' ∧
  (1 <= errCount r → pollInterval < Sleep_delay r) ∧
  (Sleep r []).1 = Sleep_delay r.
Proof.
  intros H0 Hle Hmax.
  rewrite (Sleep_delay_small r), (Sleep_delay_small r') by lia.
  unfold Sleep. simpl. rewrite (Sleep_delay_small r) by lia.
  unfold pollInterval, errTimeout, Go.Second, Go.Nanosecond. lia.
Qed.

Lemma Sleep_delay_linear_witness :
  Sleep_delay (mkPath "/mnt/storage" 2) = pollInterval + errTimeout * 2 ∧
  Sleep_delay (mkPath "/mnt/storage" 2) <= Sleep_delay (mkPath "/mnt/storage" 5) ∧
  pollInterval < Sleep_delay (mkPath "/mnt/storage" 2).
Proof.
  destruct (Sleep_delay_linear (mkPath "/mnt/storage" 2) (mkPath "/mnt/storage" 5))
    as (He & Hm & Hs & _); simpl; rewrite ?max_linear_errCount_value; try lia.
  split; [exact He|]. split; [exact Hm|]. apply Hs. simpl. lia.
Defined.

(** C6, as stated, fails: with 922337198 consecutive errors the product and
    sum exceed [int64]; the delay is negative, so it is neither the linear
    value, nor above the base interval, nor at least the delay for one
    error fewer. *)
Lemma Sleep_delay_overflow :
  let r := mkPath "/mnt/storage" 922337198 in
  let r0 := mkPath "/mnt/storage" 922337197 in
  0 <= errCount r ∧
  Sleep_delay r = -9223372033709551616 ∧
  Sleep_delay r ≠ pollInterval + errTimeout * errCount r ∧
  ¬ (pollInterval < Sleep_delay r) ∧
  errCount r0 <= errCount r ∧
  ¬ (Sleep_delay r0 <= Sleep_delay r).
Proof. vm_compute. repeat split; congruence. Qed.

(** ** The HTTP handler *)

Lemma string_app_assoc (a b c : string) : (a +:+ b) +:+ c = a +:+ (b +:+ c).
Proof.
  induction a as [|x a IH]; [reflexivity|].
  change (String x ((a +:+ b) +:+ c) = String x (a +:+ (b +:+ c))).
  by rewrite IH.
Qed.

Lemma contains_mid (pre sub post : string) : contains (pre +:+ sub +:+ post) sub.
Proof. by exists pre, post. Qed.

Lemma contains_app_r (s sub t : string) : contains s sub → contains (s +:+ t) sub.
Proof.
  intros (pre & post & ->). exists pre, (post +:+ t).
  by rewrite !string_app_assoc.
Qed.

Lemma contains_app_l (s sub t : string) : contains s sub → contains (t +:+ s) sub.
Proof.
  intros (pre & post & ->). exists (t +:+ pre), post.
  by rewrite !string_app_assoc.
Qed.

Lemma contains_prefix (sub post : string) : contains (sub +:+ post) sub.
Proof. by exists EmptyString, post. Qed.

Create HintDb contains.
#[local] Hint Resolve contains_mid contains_app_r contains_app_l contains_prefix : contains.

Lemma RLock_RUnlock (ds : diskStatus) :
  writer (mu ds) = false → RLock ds ≫= RUnlock = Some ds.
Proof.
  destruct ds as [m [w n]]; simpl. intros ->. reflexivity.
Qed.

(** With no writer inside its critical section the handler answers, with
    the response of the [switch] for the cached value, and leaves the memory
    as it found it. *)
Lemma handler_unlocked (r : http.Request) (σ : Memory) :
  writer (mu (disk σ)) = false →
  handler r σ =
    Some (respond (flags σ) (map_index (state (disk σ)) (path (flags σ))), σ).
Proof.
  destruct σ as [fl [m [w n]]]; simpl. intros ->. reflexivity.
Qed.

Lemma handler_blocked (r : http.Request) (σ : Memory) :
  writer (mu (disk σ)) = true → handler r σ = None.
Proof.
  destruct σ as [fl [m [w n]]]; simpl. intros ->. reflexivity.
Qed.

(** C3: a cached count above the threshold with the override unset is
    answered with status 500 and a body that holds the count and the
    threshold. *)
Theorem handler_over_threshold (r : http.Request) (σ : Memory) (bytes : N) :
  writer (mu (disk σ)) = false →
  state (disk σ) !! path (flags σ) = Some bytes →
  (threshold (flags σ) < bytes)%N →
  override (flags σ) = false →
  ∃ w, handler r σ = Some (w, σ) ∧
    http.status w = 500%N ∧
    http.body w = "ERROR: Bytes exceed threshold (" +:+ Go.fmt_uint64 bytes
                  +:+ "/" +:+ Go.fmt_uint64 (threshold (flags σ)) +:+ ")"
                  +:+ Go.LF ∧
    contains (http.body w) (Go.fmt_uint64 bytes) ∧
    contains (http.body w) (Go.fmt_uint64 (threshold (flags σ))).
Proof.
  intros Hw Hm Hgt Hov. eexists. split; [by apply handler_unlocked|].
  unfold map_index, respond. rewrite Hm, Hov. simpl.
  destruct (N.eqb_spec bytes 0) as [->|_]; [lia|].
  destruct (N.ltb_spec (threshold (flags σ)) bytes); [|lia]. simpl.
  split; [reflexivity|]. split; [by rewrite !string_app_assoc|].
  split; auto 10 with contains.
Qed.

Lemma handler_over_threshold_witness :
  let σ := Sample.memory (Sample.default_flags 100 false) {[ "/mnt/storage" := 101%N ]} in
  ∃ w, handler Sample.request σ = Some (w, σ) ∧
    http.status w = 500%N ∧
    http.body w = "ERROR: Bytes exceed threshold (101/100)" +:+ Go.LF ∧
    contains (http.body w) "101" ∧ contains (http.body w) "100".
Proof.
  apply (handler_over_threshold Sample.request
           (Sample.memory (Sample.default_flags 100 false) {[ "/mnt/storage" := 101%N ]})
           101%N); [reflexivity | reflexivity | reflexivity | reflexivity].
Defined.

(** C4: when the configured path is absent from the table, or cached with
    the value zero, the answer is status 503 with the text
    [Disk status not cached yet] (which [http.Error] ends with a line feed),
    whatever the override flag and the threshold are. *)
Theorem handler_not_cached (r : http.Request) (t : N) (a p : string) (o : bool)
    (ds : diskStatus) :
  writer (mu ds) = false →
  state ds !! p = None ∨ state ds !! p = Some 0%N →
  ∃ w, handler r (mkMemory (mkFlags t a p o) ds)
         = Some (w, mkMemory (mkFlags t a p o) ds) ∧
    w = http.Error "Disk status not cached yet" http.StatusServiceUnavailable ∧
    http.status w = 503%N ∧
    http.body w = "Disk status not cached yet" +:+ Go.LF.
Proof.
  intros Hw Hm. eexists. split; [by apply handler_unlocked|].
  unfold map_index; simpl. by destruct Hm as [-> | ->].
Qed.

Lemma handler_not_cached_witness :
  (∃ w, handler Sample.request (Sample.memory (Sample.default_flags 100 true) ∅)
          = Some (w, Sample.memory (Sample.default_flags 100 true) ∅) ∧
        http.status w = 503%N) ∧
  (∃ w, handler Sample.request
          (Sample.memory (Sample.default_flags 100 false) {[ "/mnt/storage" := 0%N ]})
          = Some (w, Sample.memory (Sample.default_flags 100 false)
                       {[ "/mnt/storage" := 0%N ]}) ∧
        http.status w = 503%N).
Proof.
  split.
  - destruct (handler_not_cached Sample.request 100 ":8080" "/mnt/storage" true
                (mkDiskStatus ∅ unlocked)) as (w & H & _ & Hs & _);
      [reflexivity | left; reflexivity |].
    exists w. split; [exact H | exact Hs].
  - destruct (handler_not_cached Sample.request 100 ":8080" "/mnt/storage" false
                (mkDiskStatus {[ "/mnt/storage" := 0%N ]} unlocked))
      as (w & H & _ & Hs & _); [reflexivity | right; reflexivity |].
    exists w. split; [exact H | exact Hs].
Defined.

(** C5: a cached count that is not zero, unless it exceeds the threshold
    while the override is unset, is answered with status 200 and a body
    that reports the path, the count and the override flag. *)
Theorem handler_ok (r : http.Request) (σ : Memory) (bytes : N) :
  writer (mu (disk σ)) = false →
  state (disk σ) !! path (flags σ) = Some bytes →
  bytes ≠ 0%N →
  ¬ ((threshold (flags σ) < bytes)%N ∧ override (flags σ) = false) →
  ∃ w, handler r σ = Some (w, σ) ∧
    http.status w = 200%N ∧
    http.body w = "OK: " +:+ path (flags σ) +:+ " is " +:+ Go.fmt_uint64 bytes
                  +:+ " bytes; override set to "
                  +:+ Go.fmt_bool (override (flags σ)) +:+ Go.LF ∧
    contains (http.body w) (path (flags σ)) ∧
    contains (http.body w) (Go.fmt_uint64 bytes) ∧
    contains (http.body w) (Go.fmt_bool (override (flags σ))).
Proof.
  intros Hw Hm Hnz Hno. eexists. split; [by apply handler_unlocked|].
  unfold map_index, respond. rewrite Hm. simpl.
  destruct (N.eqb_spec bytes 0) as [|_]; [done|].
  assert (((threshold (flags σ) <? bytes)%N && Bool.eqb (override (flags σ)) false)
          = false) as ->.
  { destruct (N.ltb_spec (threshold (flags σ)) bytes), (override (flags σ));
      try reflexivity. exfalso. by apply Hno. }
  simpl. split; [reflexivity|]. split; [reflexivity|].
  unfold Go.fmt_string. repeat split; auto 10 with contains.
Qed.

Lemma handler_ok_witness :
  (let σ := Sample.memory (Sample.default_flags 100 false) {[ "/mnt/storage" := 99%N ]} in
   ∃ w, handler Sample.request σ = Some (w, σ) ∧ http.status w = 200%N ∧
     http.body w = "OK: /mnt/storage is 99 bytes; override set to false" +:+ Go.LF) ∧
  (let σ := Sample.memory (Sample.default_flags 100 true) {[ "/mnt/storage" := 101%N ]} in
   ∃ w, handler Sample.request σ = Some (w, σ) ∧ http.status w = 200%N ∧
     http.body w = "OK: /mnt/storage is 101 bytes; override set to true" +:+ Go.LF).
Proof.
  split.
  - destruct (handler_ok Sample.request
                (Sample.memory (Sample.default_flags 100 false) {[ "/mnt/storage" := 99%N ]})
                99%N) as (w & H & Hs & Hb & _);
      [reflexivity | reflexivity | discriminate | intros [Hlt _]; discriminate Hlt |].
    exists w. split; [exact H|]. split; [exact Hs | exact Hb].
  - destruct (handler_ok Sample.request
                (Sample.memory (Sample.default_flags 100 true) {[ "/mnt/storage" := 101%N ]})
                101%N) as (w & H & Hs & Hb & _);
      [reflexivity | reflexivity | discriminate | intros [_ Ho]; discriminate Ho |].
    exists w. split; [exact H|]. split; [exact Hs | exact Hb].
Defined.

(** C8: the same request served twice in a row against an unchanged table
    gets the same response both times, status and body; more generally the
    response depends on the table and the flags alone. *)
Theorem handler_twice (r : http.Request) (σ σ' : Memory) :
  writer (mu (disk σ)) = false →
  writer (mu (disk σ')) = false →
  flags σ' = flags σ →
  state (disk σ') = state (disk σ) →
  ∃ w1 σ1 w2 σ2,
    handler r σ = Some (w1, σ1) ∧ handler r σ1 = Some (w2, σ2) ∧
    w2 = w1 ∧ http.status w2 = http.status w1 ∧ http.body w2 = http.body w1 ∧
    fst <$> handler r σ' = Some w1.
Proof.
  intros Hw Hw' Hfl Hst.
  exists (respond (flags σ) (map_index (state (disk σ)) (path (flags σ)))), σ.
  exists (respond (flags σ) (map_index (state (disk σ)) (path (flags σ)))), σ.
  rewrite (handler_unlocked r σ Hw), (handler_unlocked r σ' Hw'), Hfl, Hst.
  done.
Qed.

Lemma handler_twice_witness :
  let σ := Sample.memory (Sample.default_flags 100 false) {[ "/mnt/storage" := 101%N ]} in
  ∃ w1 σ1 w2 σ2,
    handler Sample.request σ = Some (w1, σ1) ∧
    handler Sample.request σ1 = Some (w2, σ2) ∧ w2 = w1.
Proof.
  destruct (handler_twice Sample.request
              (Sample.memory (Sample.default_flags 100 false) {[ "/mnt/storage" := 101%N ]})
              (Sample.memory (Sample.default_flags 100 false) {[ "/mnt/storage" := 101%N ]}))
    as (w1 & σ1 & w2 & σ2 & H1 & H2 & He & _);
    [reflexivity | reflexivity | reflexivity | reflexivity |].
  exists w1, σ1, w2, σ2. split; [exact H1|]. split; [exact H2 | exact He].
Defined.

(** C9: a request that is served leaves the memory as it was: the table,
    the flags and the mutex are the same before and after. *)
Theorem handler_pure_read (r : http.Request) (σ σ' : Memory) (w : http.Response) :
  handler r σ = Some (w, σ') →
  σ' = σ ∧
  state (disk σ') = state (disk σ) ∧
  flags σ' = flags σ ∧
  mu (disk σ') = mu (disk σ).
Proof.
  intros H. destruct (writer (mu (disk σ))) eqn:Hw.
  - by rewrite handler_blocked in H.
  - rewrite handler_unlocked in H by done. by simplify_eq.
Qed.

Lemma handler_pure_read_witness :
  ∃ w σ',
    handler Sample.request
      (Sample.memory (Sample.default_flags 100 false) {[ "/mnt/storage" := 101%N ]})
      = Some (w, σ') ∧
    σ' = Sample.memory (Sample.default_flags 100 false) {[ "/mnt/storage" := 101%N ]}.
Proof.
  exists (http.Error "ERROR: Bytes exceed threshold (101/100)" 500%N).
  exists (Sample.memory (Sample.default_flags 100 false) {[ "/mnt/storage" := 101%N ]}).
  split; [reflexivity|].
  exact (proj1 (handler_pure_read Sample.request
    (Sample.memory (Sample.default_flags 100 false) {[ "/mnt/storage" := 101%N ]})
    (Sample.memory (Sample.default_flags 100 false) {[ "/mnt/storage" := 101%N ]})
    (http.Error "ERROR: Bytes exceed threshold (101/100)" 500%N) eq_refl)).
Defined.

(** ** The state store *)

Lemma monitor_step_unlocked (m : Monitor) (t : Trigger) :
  mu (store m) = unlocked →
  ∃ m', monitor_step m t = Some m' ∧
    mu (store m') = unlocked ∧
    state (store m') =
      match t with
      | Tick => state (store m)
      | Update s => <[st_path s := st_bytes s]> (state (store m))
      end.
Proof.
  destruct m as [[tbl l] lg]; simpl. intros ->.
  destruct t as [|s]; eexists; (split; [reflexivity|]); done.
Qed.

Lemma last_event_cons (p : string) (s : State) (evs : list State) :
  last_event p (s :: evs) =
    match last_event p evs with
    | Some e => Some e
    | None => if decide (st_path s = p) then Some s else None
    end.
Proof.
  unfold last_event. rewrite filter_cons.
  destruct (decide (st_path s = p)); [by rewrite last_cons|].
  by destruct (last _).
Qed.

(** The table after a run, entry by entry. *)
Lemma monitor_run_lookup (ts : list Trigger) (m : Monitor) :
  mu (store m) = unlocked →
  ∃ m', monitor_run m ts = Some m' ∧
    mu (store m') = unlocked ∧
    ∀ p, state (store m') !! p =
           match last_event p (events ts) with
           | Some e => Some (st_bytes e)
           | None => state (store m) !! p
           end.
Proof.
  revert m. induction ts as [|t ts IH]; intros m Hm.
  - exists m. by repeat split.
  - destruct (monitor_step_unlocked m t Hm) as (m1 & Hstep & Hm1 & Hst).
    destruct (IH m1 Hm1) as (m' & Hrun & Hm' & Hlk).
    exists m'. simpl. rewrite Hstep. simpl. split; [exact Hrun|].
    split; [exact Hm'|]. intros p. rewrite Hlk, Hst.
    destruct t as [|s]; [reflexivity|].
    change (events (Update s :: ts)) with (s :: events ts).
    rewrite last_event_cons.
    destruct (last_event p (events ts)); [reflexivity|].
    destruct (decide (st_path s = p)) as [<-|Hne].
    + by rewrite lookup_insert_eq.
    + by rewrite lookup_insert_ne.
Qed.

Lemma last_event_Some (p : string) (evs : list State) :
  p ∈ st_path <$> evs →
  ∃ e pre post, last_event p evs = Some e ∧ st_path e = p ∧
    evs = pre ++ e :: post ∧ Forall (λ s, st_path s ≠ p) post.
Proof.
  intros Hin. apply list_elem_of_fmap in Hin as (s & -> & Hs).
  unfold last_event.
  destruct (last (filter (λ s0, st_path s0 = st_path s) evs)) as [e|] eqn:Hl.
  - pose proof Hl as Hl'.
    apply last_filter_Some in Hl as (pre & post & -> & Hpost).
    apply last_Some in Hl' as (l' & Hl').
    assert (e ∈ filter (λ s0, st_path s0 = st_path s) (pre ++ e :: post)) as He.
    { rewrite Hl'. apply elem_of_app. right. apply list_elem_of_singleton. done. }
    apply list_elem_of_filter in He as [He _].
    by exists e, pre, post.
  - apply last_None in Hl.
    assert (s ∈ filter (λ s0, st_path s0 = st_path s) evs) as He
      by by apply list_elem_of_filter.
    rewrite Hl in He. by apply not_elem_of_nil in He.
Qed.

Lemma last_event_None (p : string) (evs : list State) :
  p ∉ st_path <$> evs → last_event p evs = None.
Proof.
  intros Hnin. unfold last_event.
  destruct (last (filter (λ s, st_path s = p) evs)) as [e|] eqn:Hl; [|done].
  exfalso. apply Hnin. apply last_Some in Hl as (l' & Hl).
  assert (e ∈ filter (λ s, st_path s = p) evs) as He.
  { rewrite Hl. apply elem_of_app. right. by apply list_elem_of_singleton. }
  apply list_elem_of_filter in He as [<- He].
  by apply list_elem_of_fmap_2.
Qed.

(** C7: after the monitor has processed a finite sequence of triggers,
    every path that occurs among the events is mapped to the bytes of the
    last event for that path in receipt order (no later event has that
    path), and every other path keeps what the table held before; no
    event is skipped, the run never stops short. *)
Theorem monitor_last_write_wins (ts : list Trigger) (m : Monitor) :
  mu (store m) = unlocked →
  ∃ m', monitor_run m ts = Some m' ∧
    (∀ p, p ∈ st_path <$> events ts →
       ∃ e pre post,
         events ts = pre ++ e :: post ∧ st_path e = p ∧
         Forall (λ s, st_path s ≠ p) post ∧
         state (store m') !! p = Some (st_bytes e)) ∧
    (∀ p, p ∉ st_path <$> events ts →
       state (store m') !! p = state (store m) !! p).
Proof.
  intros Hm. destruct (monitor_run_lookup ts m Hm) as (m' & Hrun & _ & Hlk).
  exists m'. split; [exact Hrun|]. split.
  - intros p Hin.
    destruct (last_event_Some p (events ts) Hin) as (e & pre & post & Hl & Hp & Hev & Hpost).
    exists e, pre, post. by rewrite Hlk, Hl.
  - intros p Hnin. by rewrite Hlk, last_event_None.
Qed.

Lemma monitor_last_write_wins_witness :
  ∃ m', monitor_run monitor_init
          [Update (mkState "/a" 1); Tick; Update (mkState "/b" 5);
           Update (mkState "/a" 7)] = Some m' ∧
    state (store m') !! "/a" = Some 7%N ∧
    state (store m') !! "/b" = Some 5%N ∧
    state (store m') !! "/c" = None.
Proof.
  destruct (monitor_last_write_wins
              [Update (mkState "/a" 1); Tick; Update (mkState "/b" 5);
               Update (mkState "/a" 7)] monitor_init)
    as (m' & Hrun & Hin & Hnin); [reflexivity|].
  exists m'. split; [exact Hrun|].
  injection Hrun as <-. repeat split; reflexivity.
Defined.

(** ** The poller *)

Section PollProperties.

Variable Output : string → list string → string * option string.
Variable TrimSpace : string → string.
Variable Split : string → string → list string.
Variable ParseUint : string → Z → Z → N * option string.

Let poll := Poll Output TrimSpace Split ParseUint.
Let poller_iter := Poller_iter Output TrimSpace Split ParseUint.

(** All the ways [Poll] can end.  The two increments never show: each
    follows a [log.Fatal]. *)
Lemma Poll_cases (r : Path) :
  poll r =
    match Output "du" ["-sbx"; p_path r] with
    | (_, Some e) => Go.Exited 1 e
    | (out, None) =>
        match Split (TrimSpace out) Go.TAB with
        | [] => Go.Panicked "index out of range [0] with length 0"
        | bytesStr :: _ =>
            match ParseUint bytesStr 0 64 with
            | (_, Some e) => Go.Exited 1 e
            | (bytes, None) => Go.Returned (bytes, mkPath (p_path r) 0)
            end
        end
    end.
Proof.
  unfold poll, Poll.
  destruct (Output _ _) as [out [e|]]; [reflexivity|]. simpl.
  destruct (Split _ _) as [|bytesStr l]; [reflexivity|]. simpl.
  by destruct (ParseUint _ _ _) as [bytes [e|]].
Qed.

(** A failing command ends the process. *)
Lemma Poll_exec_error (r : Path) (out e : string) :
  Output "du" ["-sbx"; p_path r] = (out, Some e) → poll r = Go.Exited 1 e.
Proof. intros H. by rewrite Poll_cases, H. Qed.

(** So does output whose first field is not a number. *)
Lemma Poll_parse_error (r : Path) (out bytesStr e : string) (l : list string) (n : N) :
  Output "du" ["-sbx"; p_path r] = (out, None) →
  Split (TrimSpace out) Go.TAB = bytesStr :: l →
  ParseUint bytesStr 0 64 = (n, Some e) →
  poll r = Go.Exited 1 e.
Proof. intros H1 H2 H3. by rewrite Poll_cases, H1, H2, H3. Qed.

(** A poll that returns found a command that succeeded and a first field
    that parsed, and hands back the path with a count of zero. *)
Lemma Poll_returned (r r' : Path) (bytes : N) :
  poll r = Go.Returned (bytes, r') →
  r' = mkPath (p_path r) 0 ∧
  ∃ out bytesStr l,
    Output "du" ["-sbx"; p_path r] = (out, None) ∧
    Split (TrimSpace out) Go.TAB = bytesStr :: l ∧
    ParseUint bytesStr 0 64 = (bytes, None).
Proof.
  rewrite Poll_cases.
  destruct (Output _ _) as [out [e|]] eqn:Ho; [done|].
  destruct (Split _ _) as [|bytesStr l] eqn:Hs; [done|].
  destruct (ParseUint _ _ _) as [n [e|]] eqn:Hp; [done|].
  intros [= <- <-]. split; [reflexivity|].
  exists out, bytesStr, l. by rewrite Hs, Hp.
Qed.

(** C10: whenever [Poll] returns, the error count of the path is 0, and
    the delay [Sleep] computes for it is the base poll interval. *)
Theorem Poll_returns_errCount_zero (r r' : Path) (bytes : N) :
  poll r = Go.Returned (bytes, r') →
  errCount r' = 0 ∧
  Sleep_delay r' = pollInterval ∧
  (Sleep r' []).1 = pollInterval.
Proof.
  intros H. apply Poll_returned in H as [-> _]. by vm_compute.
Qed.

(** The same for the path that [Poller] sends on to be slept on. *)
Lemma Poller_iter_errCount_zero (r r' : Path) (s : State) :
  poller_iter r = Go.Returned (s, r') →
  Sleep_delay r' = pollInterval ∧ st_path s = p_path r.
Proof.
  unfold poller_iter, Poller_iter. fold poll.
  destruct (poll r) as [[bytes r1]| |] eqn:Hp; [|done..].
  apply Poll_returned in Hp as [-> _]. simpl.
  intros [= <- <-]. split; reflexivity.
Qed.

End PollProperties.

Lemma Poll_returns_errCount_zero_witness :
  Sample.Poll (mkPath "/mnt/storage" 3)
    = Go.Returned (4096%N, mkPath "/mnt/storage" 0) ∧
  Sleep_delay (mkPath "/mnt/storage" 0) = pollInterval.
Proof.
  split; [reflexivity|].
  exact (proj1 (proj2 (Poll_returns_errCount_zero
    Sample.Output Sample.TrimSpace Sample.Split Sample.ParseUint
    (mkPath "/mnt/storage" 3) (mkPath "/mnt/storage" 0) 4096%N eq_refl))).
Defined.

(** C1 fails on the code: a poll whose command fails, or whose output is
    not a number, ends the whole process with exit status 1; no error count
    is incremented and nothing is returned to retry. *)
Theorem Poll_failure_exits :
  Sample.Poll (mkPath "/missing" 0) = Go.Exited 1 "exit status 1" ∧
  Sample.Poll (mkPath "/garbled" 0)
    = Go.Exited 1 "strconv.ParseUint: invalid syntax" ∧
  ∀ r bytes r', Sample.Poll r = Go.Returned (bytes, r') → errCount r' = 0.
Proof.
  split; [reflexivity|]. split; [reflexivity|].
  intros r bytes r' H. by apply Poll_returned in H as [-> _].
Qed.

(** * Further properties of the code *)

(** ** [logState] and the loop of the monitor *)

(** X1: [logState] prints the header and then exactly one line per entry of
    the table: as many lines as the table has keys, and for every cached
    path the line with its name and its count.  The store is left as it
    was. *)
Theorem logState_snapshot (ds : diskStatus) :
  writer (mu ds) = false →
  ∃ lines, logState ds = Some ("Current state:" :: lines, ds) ∧
    length lines = size (state ds) ∧
    ∀ k v, state ds !! k = Some v →
      (" " +:+ k +:+ " " +:+ Go.fmt_uint64 v) ∈ lines.
Proof.
  destruct ds as [m [w n]]; simpl. intros ->.
  eexists. split; [reflexivity|]. split.
  - by rewrite length_fmap, length_map_to_list.
  - intros k v Hkv.
    apply (list_elem_of_fmap_2'
             (λ kv : string * N, " " +:+ kv.1 +:+ " " +:+ Go.fmt_uint64 kv.2)
             _ (k, v)); [|reflexivity].
    by apply elem_of_map_to_list.
Qed.

Lemma logState_snapshot_witness :
  ∃ lines,
    logState (mkDiskStatus {[ "/mnt/storage" := 4096%N ]} unlocked)
      = Some ("Current state:" :: lines,
              mkDiskStatus {[ "/mnt/storage" := 4096%N ]} unlocked) ∧
    length lines = 1%nat ∧
    " /mnt/storage 4096" ∈ lines.
Proof.
  destruct (logState_snapshot (mkDiskStatus {[ "/mnt/storage" := 4096%N ]} unlocked))
    as (lines & H & Hlen & Hin); [reflexivity|].
  exists lines. split; [exact H|]. split; [exact Hlen|].
  apply (Hin "/mnt/storage" 4096%N). reflexivity.
Defined.

(** What one step of the loop does to the table and to the log. *)
Lemma monitor_step_spec (m : Monitor) (t : Trigger) :
  mu (store m) = unlocked →
  ∃ m' lines, monitor_step m t = Some m' ∧
    mu (store m') = unlocked ∧
    logged m' = logged m ++ lines ∧
    match t with
    | Tick => state (store m') = state (store m) ∧
              length lines = S (size (state (store m)))
    | Update s => state (store m') = <[st_path s := st_bytes s]> (state (store m)) ∧
                  lines = []
    end.
Proof.
  destruct m as [[tbl l] lg]; simpl. intros ->.
  destruct t as [|s]; eexists _, _; (split; [reflexivity|]); simpl.
  - split; [done|]. split; [done|]. split; [done|].
    simpl. by rewrite length_fmap, length_map_to_list.
  - split; [done|]. split; [by rewrite app_nil_r|]. done.
Qed.


(** The table after a run is the fold of the upserts of its events; the
    log only grows, and does not grow without a tick. *)
Lemma monitor_run_fold (ts : list Trigger) (m : Monitor) :
  mu (store m) = unlocked →
  ∃ m' lines, monitor_run m ts = Some m' ∧
    mu (store m') = unlocked ∧
    state (store m') =
      foldl (λ tbl s, <[st_path s := st_bytes s]> tbl) (state (store m)) (events ts) ∧
    logged m' = logged m ++ lines ∧
    (Tick ∉ ts → lines = []).
Proof.
  revert m. induction ts as [|t ts IH]; intros m Hm.
  - exists m, []. by rewrite app_nil_r.
  - destruct (monitor_step_spec m t Hm) as (m1 & l1 & Hstep & Hm1 & Hlog & Ht).
    destruct (IH m1 Hm1) as (m' & l2 & Hrun & Hm' & Hst & Hlog' & Hno).
    exists m', (l1 ++ l2). simpl. rewrite Hstep. simpl.
    split; [exact Hrun|]. split; [exact Hm'|]. split; [|split].
    + rewrite Hst. destruct t as [|s]; destruct Ht as [-> _]; reflexivity.
    + by rewrite Hlog', Hlog, app_assoc.
    + intros Hnin. apply not_elem_of_cons in Hnin as [Hne Hnin].
      destruct t as [|s]; [done|]. destruct Ht as [_ ->]. by rewrite Hno.
Qed.

Lemma events_Update (evs : list State) : events (Update <$> evs) = evs.
Proof. induction evs as [|s evs IH]; [done|]. simpl. by rewrite <- IH at 2. Qed.

Lemma Tick_not_Update (evs : list State) : Tick ∉ Update <$> evs.
Proof. intros (s & Hs & _)%list_elem_of_fmap. discriminate. Qed.

(** X2: ticks do not touch the table.  A run over any sequence of triggers
    leaves the same store as the run over its events alone, and a run
    without ticks logs nothing. *)
Theorem monitor_ticks_transparent (ts : list Trigger) (m : Monitor) :
  mu (store m) = unlocked →
  ∃ m1 m2,
    monitor_run m ts = Some m1 ∧
    monitor_run m (Update <$> events ts) = Some m2 ∧
    store m1 = store m2 ∧
    logged m2 = logged m.
Proof.
  intros Hm.
  destruct (monitor_run_fold ts m Hm) as (m1 & l1 & H1 & Hm1 & Hs1 & _ & _).
  destruct (monitor_run_fold (Update <$> events ts) m Hm)
    as (m2 & l2 & H2 & Hm2 & Hs2 & Hl2 & Hno).
  exists m1, m2. split; [exact H1|]. split; [exact H2|]. split.
  - rewrite events_Update in Hs2.
    destruct m1 as [[t1 u1] g1], m2 as [[t2 u2] g2]; simpl in *. congruence.
  - rewrite Hl2, Hno; [by rewrite app_nil_r | apply Tick_not_Update].
Qed.

Lemma monitor_ticks_transparent_witness :
  ∃ m1 m2,
    monitor_run monitor_init [Tick; Update (mkState "/a" 1); Tick] = Some m1 ∧
    monitor_run monitor_init [Update (mkState "/a" 1)] = Some m2 ∧
    store m1 = store m2 ∧ logged m2 = [].
Proof.
  exact (monitor_ticks_transparent [Tick; Update (mkState "/a" 1); Tick]
           monitor_init eq_refl).
Defined.

Lemma dom_upserts (evs : list State) (tbl : gmap string N) :
  dom (foldl (λ tbl s, <[st_path s := st_bytes s]> tbl) tbl evs) =
    dom tbl ∪ list_to_set (st_path <$> evs).
Proof.
  revert tbl. induction evs as [|s evs IH]; intros tbl; simpl.
  - by rewrite (right_id_L ∅ (∪)).
  - rewrite IH, dom_insert_L.
    rewrite (assoc_L (∪)). f_equal. apply (comm_L (∪)).
Qed.

(** X3: the table never loses a key.  After any run its keys are the keys
    it had before together with the paths of the events received. *)
Theorem monitor_no_eviction (ts : list Trigger) (m : Monitor) :
  mu (store m) = unlocked →
  ∃ m', monitor_run m ts = Some m' ∧
    dom (state (store m')) =
      dom (state (store m)) ∪ list_to_set (st_path <$> events ts) ∧
    (size (state (store m)) ≤ size (state (store m')))%nat.
Proof.
  intros Hm.
  destruct (monitor_run_fold ts m Hm) as (m' & l & Hrun & _ & Hst & _ & _).
  exists m'. split; [exact Hrun|].
  assert (dom (state (store m')) =
          dom (state (store m)) ∪ list_to_set (st_path <$> events ts)) as Hdom.
  { rewrite Hst. apply dom_upserts. }
  split; [exact Hdom|].
  rewrite <- !size_dom, Hdom. apply subseteq_size, union_subseteq_l.
Qed.

Lemma monitor_no_eviction_witness :
  ∃ m', monitor_run monitor_init
          [Update (mkState "/a" 1); Tick; Update (mkState "/b" 5);
           Update (mkState "/a" 7)] = Some m' ∧
    dom (state (store m')) = ∅ ∪ list_to_set ["/a"; "/b"; "/a"] ∧
    (0 ≤ size (state (store m')))%nat.
Proof.
  exact (monitor_no_eviction
           [Update (mkState "/a" 1); Tick; Update (mkState "/b" 5);
            Update (mkState "/a" 7)] monitor_init eq_refl).
Defined.



(** ** The endpoint and the store together *)

Lemma last_event_latest (p : string) (pre post : list State) (e : State) :
  st_path e = p →
  Forall (λ s, st_path s ≠ p) post →
  last_event p (pre ++ e :: post) = Some e.
Proof.
  intros He Hpost. unfold last_event.
  rewrite filter_app, filter_cons_True by done.
  assert (filter (λ s, st_path s = p) post = []) as ->.
  { induction Hpost as [|s post Hs _ IH]; [done|].
    by rewrite filter_cons_False. }
  by rewrite last_snoc.
Qed.

(** X5: the endpoint answers from the most recent measurement.  If the
    last event for the configured path among the triggers processed carries
    [bytes], the handler's response is the one the [switch] chooses for
    [bytes], whatever was cached before and whatever other paths were
    updated. *)
Theorem handler_after_run (r : http.Request) (fl : Flags) (m : Monitor)
    (ts : list Trigger) (pre post : list State) (e : State) :
  mu (store m) = unlocked →
  events ts = pre ++ e :: post →
  st_path e = path fl →
  Forall (λ s, st_path s ≠ path fl) post →
  ∃ m', monitor_run m ts = Some m' ∧
    handler r (mkMemory fl (store m'))
      = Some (respond fl (st_bytes e), mkMemory fl (store m')).
Proof.
  intros Hm Hev He Hpost.
  destruct (monitor_run_lookup ts m Hm) as (m' & Hrun & Hm' & Hlk).
  exists m'. split; [exact Hrun|].
  rewrite handler_unlocked by (simpl; by rewrite Hm'). simpl.
  unfold map_index. rewrite Hlk, Hev, (last_event_latest _ _ _ _ He Hpost).
  reflexivity.
Qed.

Lemma handler_after_run_witness :
  ∃ m', monitor_run monitor_init
          [Update (mkState "/mnt/storage" 50); Tick;
           Update (mkState "/mnt/storage" 101); Update (mkState "/other" 7)]
          = Some m' ∧
    handler Sample.request (mkMemory (Sample.default_flags 100 false) (store m'))
      = Some (http.Error "ERROR: Bytes exceed threshold (101/100)" 500%N,
              mkMemory (Sample.default_flags 100 false) (store m')).
Proof.
  apply (handler_after_run Sample.request (Sample.default_flags 100 false)
           monitor_init
           [Update (mkState "/mnt/storage" 50); Tick;
            Update (mkState "/mnt/storage" 101); Update (mkState "/other" 7)]
           [mkState "/mnt/storage" 50] [mkState "/other" 7]
           (mkState "/mnt/storage" 101));
    [reflexivity | reflexivity | reflexivity |].
  apply Forall_cons. split; [discriminate | apply Forall_nil_2].
Defined.

(** X6: until an event for the configured path arrives the endpoint keeps
    answering 503: from the start of [StateMonitor], ticks and events for
    other paths do not change that. *)
Theorem handler_before_first_measurement (r : http.Request) (fl : Flags)
    (ts : list Trigger) :
  path fl ∉ st_path <$> events ts →
  ∃ m', monitor_run monitor_init ts = Some m' ∧
    handler r (mkMemory fl (store m'))
      = Some (http.Error "Disk status not cached yet" 503%N,
              mkMemory fl (store m')).
Proof.
  intros Hnin.
  destruct (monitor_run_lookup ts monitor_init eq_refl) as (m' & Hrun & Hm' & Hlk).
  exists m'. split; [exact Hrun|].
  rewrite handler_unlocked by (simpl; by rewrite Hm'). simpl.
  unfold map_index. by rewrite Hlk, last_event_None.
Qed.

Lemma handler_before_first_measurement_witness :
  ∃ m', monitor_run monitor_init [Tick; Update (mkState "/other" 7); Tick] = Some m' ∧
    handler Sample.request (mkMemory (Sample.default_flags 100 false) (store m'))
      = Some (http.Error "Disk status not cached yet" 503%N,
              mkMemory (Sample.default_flags 100 false) (store m')).
Proof.
  apply (handler_before_first_measurement Sample.request
           (Sample.default_flags 100 false)
           [Tick; Update (mkState "/other" 7); Tick]).
  simpl. intros [H|H]%elem_of_cons; [discriminate H|].
  by apply not_elem_of_nil in H.
Defined.

(** X7: the three status codes and when each is sent.  A served request is
    answered with 503 exactly when the cached count is zero or missing, with
    500 exactly when it is above the threshold and the override is unset,
    and with 200 otherwise; with the override set there is never a 500. *)
Theorem handler_status (r : http.Request) (σ σ' : Memory) (w : http.Response) :
  handler r σ = Some (w, σ') →
  let bytes := map_index (state (disk σ)) (path (flags σ)) in
  (http.status w = 503%N ↔ bytes = 0%N) ∧
  (http.status w = 500%N ↔
     (threshold (flags σ) < bytes)%N ∧ override (flags σ) = false) ∧
  (http.status w = 200%N ↔
     bytes ≠ 0%N ∧ ¬ ((threshold (flags σ) < bytes)%N ∧ override (flags σ) = false)) ∧
  (override (flags σ) = true → http.status w ≠ 500%N).
Proof.
  intros H bytes.
  destruct (writer (mu (disk σ))) eqn:Hw; [by rewrite handler_blocked in H|].
  rewrite handler_unlocked in H by done. injection H as <- _.
  fold bytes. unfold respond.
  destruct (N.eqb_spec bytes 0) as [Hz|Hz]; simpl.
  - rewrite Hz. repeat split; try done; intuition (try lia; try congruence).
  - destruct (N.ltb_spec (threshold (flags σ)) bytes) as [Hlt|Hle];
      destruct (override (flags σ)) eqn:Ho; simpl;
      repeat split; try done; intuition (try lia; try congruence).
Qed.

Lemma handler_status_witness :
  ∃ w σ',
    handler Sample.request
      (Sample.memory (Sample.default_flags 100 true) {[ "/mnt/storage" := 101%N ]})
      = Some (w, σ') ∧
    http.status w ≠ 500%N.
Proof.
  exists (http.Fprint ("OK: /mnt/storage is 101 bytes; override set to true" +:+ Go.LF)).
  exists (Sample.memory (Sample.default_flags 100 true) {[ "/mnt/storage" := 101%N ]}).
  assert (handler Sample.request
            (Sample.memory (Sample.default_flags 100 true) {[ "/mnt/storage" := 101%N ]})
          = Some (http.Fprint ("OK: /mnt/storage is 101 bytes; override set to true" +:+ Go.LF),
                  Sample.memory (Sample.default_flags 100 true) {[ "/mnt/storage" := 101%N ]}))
    as H by reflexivity.
  split; [exact H|].
  destruct (handler_status _ _ _ _ H) as (_ & _ & _ & Hov).
  apply Hov. reflexivity.
Defined.

(** ** The response determines the measurement *)

Lemma pretty_N_char_digit (x : N) : is_Some (Ascii.is_nat (pretty_N_char x)).
Proof. unfold pretty_N_char. repeat case_match; by eexists. Qed.

Lemma all_digits_pretty_N_go (x : N) (s : string) :
  all_digits s = true → all_digits (pretty_N_go x s) = true.
Proof.
  revert s. induction (N.lt_wf_0 x) as [x _ IH]; intros s Hs.
  destruct (decide (x = 0%N)) as [->|Hx]; [by rewrite pretty_N_go_0|].
  rewrite pretty_N_go_step by lia. apply IH.
  - apply N.div_lt; lia.
  - simpl. by destruct (pretty_N_char_digit (x `mod` 10)) as [d ->].
Qed.

Lemma all_digits_fmt_uint64 (n : N) : all_digits (Go.fmt_uint64 n) = true.
Proof.
  unfold Go.fmt_uint64, pretty, pretty_N.
  case_decide; [reflexivity|]. by apply all_digits_pretty_N_go.
Qed.

(** Two numerals followed by characters that are no digits are equal when
    the strings are. *)
Lemma digits_app_inj (a b s t : string) (c c' : ascii) :
  all_digits a = true → all_digits b = true →
  Ascii.is_nat c = None → Ascii.is_nat c' = None →
  a +:+ String c s = b +:+ String c' t → a = b.
Proof.
  revert b. induction a as [|x a IH]; intros [|y b] Ha Hb Hc Hc' H.
  - reflexivity.
  - injection H as -> _. simpl in Hb. by rewrite Hc in Hb.
  - injection H as -> _. simpl in Ha. by rewrite Hc' in Ha.
  - injection H as -> H. f_equal. simpl in Ha, Hb.
    destruct (Ascii.is_nat y); [|done]. by apply IH.
Qed.

Lemma respond_inj (fl : Flags) (b b' : N) :
  respond fl b = respond fl b' → b = b'.
Proof.
  unfold respond.
  destruct (N.eqb_spec b 0) as [->|Hb], (N.eqb_spec b' 0) as [->|Hb']; [done|..].
  - destruct (_ && _); intros [= ?].
  - destruct (_ && _); intros [= ?].
  - destruct ((threshold fl <? b)%N && _), ((threshold fl <? b')%N && _);
      unfold http.Error, http.Fprint; intros [= H].
    + rewrite !string_app_assoc in H.
      apply (inj Go.fmt_uint64).
      apply (digits_app_inj _ _ (Go.fmt_uint64 (threshold fl) +:+ ")" +:+ Go.LF)
               (Go.fmt_uint64 (threshold fl) +:+ ")" +:+ Go.LF) "/" "/");
        [apply all_digits_fmt_uint64 | apply all_digits_fmt_uint64 | done | done |].
      exact H.
    + assert (Go.fmt_string (path fl) +:+ " is " +:+ Go.fmt_uint64 b +:+
                " bytes; override set to " +:+ Go.fmt_bool (override fl) +:+ Go.LF
              = Go.fmt_string (path fl) +:+ " is " +:+ Go.fmt_uint64 b' +:+
                " bytes; override set to " +:+ Go.fmt_bool (override fl) +:+ Go.LF)
        as H1 by exact H.
      apply (inj (String.app _)) in H1. injection H1 as H1.
      apply (inj Go.fmt_uint64).
      apply (digits_app_inj _ _
               ("bytes; override set to " +:+ Go.fmt_bool (override fl) +:+ Go.LF)
               ("bytes; override set to " +:+ Go.fmt_bool (override fl) +:+ Go.LF)
               " " " ");
        [apply all_digits_fmt_uint64 | apply all_digits_fmt_uint64 | done | done |].
      exact H1.
Qed.

(** X8: the response tells the cached count.  Under the same flags, two
    served requests with the same response, status and body, were answered
    from the same count for the configured path (a missing entry counting
    as zero): different counts are never reported alike. *)
Theorem handler_response_determines_bytes (r r' : http.Request)
    (σ1 σ2 σ1' σ2' : Memory) (w : http.Response) :
  flags σ1 = flags σ2 →
  handler r σ1 = Some (w, σ1') →
  handler r' σ2 = Some (w, σ2') →
  map_index (state (disk σ1)) (path (flags σ1))
    = map_index (state (disk σ2)) (path (flags σ2)).
Proof.
  intros Hfl H1 H2.
  destruct (writer (mu (disk σ1))) eqn:Hw1; [by rewrite handler_blocked in H1|].
  destruct (writer (mu (disk σ2))) eqn:Hw2; [by rewrite handler_blocked in H2|].
  rewrite handler_unlocked in H1, H2 by done.
  injection H1 as H1 _. injection H2 as H2 _.
  apply (respond_inj (flags σ1)). rewrite H1, Hfl. by rewrite H2.
Qed.

Lemma handler_response_determines_bytes_witness :
  map_index (state (disk (Sample.memory (Sample.default_flags 100 false)
                            {[ "/mnt/storage" := 99%N ]}))) "/mnt/storage"
  = map_index (state (disk (Sample.memory (Sample.default_flags 100 false)
                              {[ "/mnt/storage" := 99%N; "/other" := 5%N ]})))
      "/mnt/storage".
Proof.
  apply (handler_response_determines_bytes Sample.request Sample.request
           (Sample.memory (Sample.default_flags 100 false) {[ "/mnt/storage" := 99%N ]})
           (Sample.memory (Sample.default_flags 100 false)
              {[ "/mnt/storage" := 99%N; "/other" := 5%N ]})
           (Sample.memory (Sample.default_flags 100 false) {[ "/mnt/storage" := 99%N ]})
           (Sample.memory (Sample.default_flags 100 false)
              {[ "/mnt/storage" := 99%N; "/other" := 5%N ]})
           (http.Fprint ("OK: /mnt/storage is 99 bytes; override set to false" +:+ Go.LF)));
    reflexivity.
Defined.

(** ** [Sleep] *)

Lemma wrap64_range (z : Z) : Go.MinInt64 <= Go.wrap64 z <= Go.MaxInt64.
Proof.
  unfold Go.wrap64, Go.MinInt64, Go.MaxInt64.
  pose proof (Z.mod_pos_bound (z + 2 ^ 63) (2 ^ 64)). lia.
Qed.

Lemma wrap64_congr (z : Z) : ∃ q, Go.wrap64 z = z + 2 ^ 64 * q.
Proof.
  exists (- ((z + 2 ^ 63) `div` 2 ^ 64)). unfold Go.wrap64.
  rewrite Z.mod_eq by lia. lia.
Qed.

(** X9: [Sleep] for any error count, overflow included.  The path is sent
    on [done] unchanged, after everything sent before; the time slept is
    never negative and fits an [int64]; it is the computed delay, or zero
    when that is negative; and the computed delay differs from
    [pollInterval + errTimeout * errCount] by a multiple of 2^64. *)
Theorem Sleep_any_count (r : Path) (done : list Path) :
  (Sleep r done).2 = done ++ [r] ∧
  0 <= (Sleep r done).1 <= Go.MaxInt64 ∧
  ((Sleep r done).1 = Sleep_delay r ∨
   ((Sleep r done).1 = 0 ∧ Sleep_delay r < 0)) ∧
  (Sleep_delay r - (pollInterval + errTimeout * errCount r)) `mod` 2 ^ 64 = 0.
Proof.
  unfold Sleep. simpl.
  pose proof (wrap64_range (pollInterval + Go.wrap64 (errTimeout * Go.wrap64 (errCount r))))
    as Hr. fold (Sleep_delay r) in Hr.
  split; [reflexivity|]. split; [unfold Go.MaxInt64 in *; lia|]. split; [lia|].
  unfold Sleep_delay.
  destruct (wrap64_congr (errCount r)) as [q1 ->].
  destruct (wrap64_congr (errTimeout * (errCount r + 2 ^ 64 * q1))) as [q2 ->].
  destruct (wrap64_congr (pollInterval + (errTimeout * (errCount r + 2 ^ 64 * q1) + 2 ^ 64 * q2)))
    as [q3 ->].
  replace (_ - _) with ((errTimeout * q1 + q2 + q3) * 2 ^ 64) by lia.
  apply Z.mod_mul. lia.
Qed.

(** ** [Poll], for any command and library *)

Lemma Sample_Split_nonempty (s : string) : Sample.Split s Go.TAB ≠ [].
Proof.
  unfold Sample.Split. simpl.
  destruct s as [|c s]; simpl; [done|].
  destruct (Ascii.eqb c _); [done|]. by destruct (Sample.fields _ s).
Qed.

Section PollOutcome.

Variable Output : string → list string → string * option string.
Variable TrimSpace : string → string.
Variable Split : string → string → list string.
Variable ParseUint : string → Z → Z → N * option string.

Let poll := Poll Output TrimSpace Split ParseUint.

(** X10: when [Poll] returns and what.  It returns exactly when [du -sbx]
    on the path succeeds and [ParseUint], in base 0 and 64 bits, accepts
    the first tab-separated field of the trimmed output; the value returned
    is the number parsed, and the path keeps its name and has count 0. *)
Theorem Poll_returns_iff (r r' : Path) (bytes : N) :
  poll r = Go.Returned (bytes, r') ↔
  r' = mkPath (p_path r) 0 ∧
  ∃ out bytesStr l,
    Output "du" ["-sbx"; p_path r] = (out, None) ∧
    Split (TrimSpace out) Go.TAB = bytesStr :: l ∧
    ParseUint bytesStr 0 64 = (bytes, None).
Proof.
  split; [apply Poll_returned|].
  intros (-> & out & bytesStr & l & Ho & Hs & Hp).
  unfold poll. by rewrite Poll_cases, Ho, Hs, Hp.
Qed.

(** X11: [Poll] has two ways to end.  As [strings.Split] with a separator
    that is not empty yields at least one field, the index [[0]] cannot
    panic: a poll either returns, or ends the process with exit status 1
    and the error of the command or of the parser as its last words. *)
Theorem Poll_returns_or_exits (r : Path) :
  (∀ s, Split s Go.TAB ≠ []) →
  (∃ bytes, poll r = Go.Returned (bytes, mkPath (p_path r) 0)) ∨
  (∃ out e, Output "du" ["-sbx"; p_path r] = (out, Some e) ∧
            poll r = Go.Exited 1 e) ∨
  (∃ out bytesStr l n e,
     Output "du" ["-sbx"; p_path r] = (out, None) ∧
     Split (TrimSpace out) Go.TAB = bytesStr :: l ∧
     ParseUint bytesStr 0 64 = (n, Some e) ∧
     poll r = Go.Exited 1 e).
Proof.
  intros Hsplit. unfold poll. rewrite Poll_cases.
  destruct (Output _ _) as [out [e|]] eqn:Ho.
  { right. left. by exists out, e. }
  destruct (Split _ _) as [|bytesStr l] eqn:Hs; [by apply Hsplit in Hs|].
  destruct (ParseUint _ _ _) as [n [e|]] eqn:Hp.
  - right. right. by exists out, bytesStr, l, n, e.
  - left. by exists n.
Qed.

End PollOutcome.

Lemma Poll_returns_or_exits_witness :
  (∃ bytes, Sample.Poll (mkPath "/garbled" 2)
            = Go.Returned (bytes, mkPath "/garbled" 0)) ∨
  (∃ out e, Sample.Output "du" ["-sbx"; "/garbled"] = (out, Some e) ∧
            Sample.Poll (mkPath "/garbled" 2) = Go.Exited 1 e) ∨
  (∃ out bytesStr l n e,
     Sample.Output "du" ["-sbx"; "/garbled"] = (out, None) ∧
     Sample.Split (Sample.TrimSpace out) Go.TAB = bytesStr :: l ∧
     Sample.ParseUint bytesStr 0 64 = (n, Some e) ∧
     Sample.Poll (mkPath "/garbled" 2) = Go.Exited 1 e).
Proof.
  exact (Poll_returns_or_exits Sample.Output Sample.TrimSpace Sample.Split
           Sample.ParseUint (mkPath "/garbled" 2) Sample_Split_nonempty).
Defined.

(** ** The loop of [Poller] and the turns of the path through [main] *)

Section PipelineProperties.

Variable TrimSpace : string → string.
Variable Split : string → string → list string.
Variable ParseUint : string → Z → Z → N * option string.

Let poll (ex : Exec) := Poll ex TrimSpace Split ParseUint.
Let poller_iter (ex : Exec) := Poller_iter ex TrimSpace Split ParseUint.
Let poller := Poller TrimSpace Split ParseUint.

Lemma Poller_iter_returned (ex : Exec) (r r' : Path) (s : State) :
  poller_iter ex r = Go.Returned (s, r') →
  r' = mkPath (p_path r) 0 ∧ st_path s = p_path r ∧
  poll ex r = Go.Returned (st_bytes s, mkPath (p_path r) 0).
Proof.
  unfold poller_iter, Poller_iter. fold (poll ex).
  destruct (poll ex r) as [[bytes r1]| |] eqn:Hp; [|done..].
  apply Poll_returned in Hp as [-> _]. simpl. by intros [= <- <-].
Qed.

Lemma Poller_iter_exits (ex : Exec) (r : Path) (out e : string) :
  ex "du" ["-sbx"; p_path r] = (out, Some e) →
  poller_iter ex r = Go.Exited 1 e.
Proof.
  intros H. unfold poller_iter, Poller_iter.
  by rewrite (Poll_exec_error _ _ _ _ _ _ _ H).
Qed.

Lemma Poller_app (a b : list (Exec * Path)) (ch : Sent) :
  poller (a ++ b) ch = poller a ch ≫= poller b.
Proof.
  revert ch. induction a as [|[ex r] a IH]; intros ch; [done|].
  unfold poller in *. simpl.
  destruct (Poller_iter ex TrimSpace Split ParseUint r) as [[s r']| |]; simpl; [|done..].
  apply IH.
Qed.

(** X12: what a run of [Poller] that comes to its end has sent.  Every path
    received went out on [out], in the order received, with its name and
    an error count of 0; and [status] got one event per path, in the same
    order, under the path's name. *)
Theorem Poller_returns (inp : list (Exec * Path)) (ch ch' : Sent) :
  poller inp ch = Go.Returned ch' →
  sent_out ch' = sent_out ch ++ ((λ er, mkPath (p_path er.2) 0) <$> inp) ∧
  st_path <$> sent_status ch' =
    (st_path <$> sent_status ch) ++ ((λ er, p_path er.2) <$> inp) ∧
  length (sent_status ch') = (length (sent_status ch) + length inp)%nat.
Proof.
  revert ch. induction inp as [|[ex r] inp IH]; intros ch H.
  - injection H as <-. by rewrite !app_nil_r, Nat.add_0_r.
  - unfold poller in H. simpl in H.
    destruct (Poller_iter ex TrimSpace Split ParseUint r) as [[s r']| |] eqn:Hi;
      simpl in H; [|done..].
    apply Poller_iter_returned in Hi as (-> & Hs & _).
    apply IH in H as (Ho & Hst & Hlen). simpl in *.
    rewrite Ho, Hst, Hlen, fmap_app, length_app, <- !app_assoc. simpl.
    rewrite Hs. split; [done|]. split; [done|]. lia.
Qed.

(** X13: the first failing command ends everything.  If the polls of the
    paths received so far returned and the command fails for the next
    path, the run of [Poller] ends the process with exit status 1 and that
    error; the paths behind it are not polled and nothing more is sent. *)
Theorem Poller_first_failure (pre post : list (Exec * Path)) (ex : Exec)
    (r : Path) (ch ch1 : Sent) (out e : string) :
  poller pre ch = Go.Returned ch1 →
  ex "du" ["-sbx"; p_path r] = (out, Some e) →
  poller (pre ++ (ex, r) :: post) ch = Go.Exited 1 e.
Proof.
  intros Hpre Hex. rewrite Poller_app, Hpre. simpl.
  unfold poller. simpl. fold (poller_iter ex).
  by rewrite (Poller_iter_exits ex r out e Hex).
Qed.

End PipelineProperties.

Lemma Poller_returns_witness :
  ∃ ch', SampleRun.Poller [(SampleRun.du_reports 7, mkPath "/a" 3);
                           (SampleRun.du_reports 9, mkPath "/b" 0)] (mkSent [] [])
         = Go.Returned ch' ∧
    sent_out ch' = [mkPath "/a" 0; mkPath "/b" 0] ∧
    st_path <$> sent_status ch' = ["/a"; "/b"].
Proof.
  eexists. split; [reflexivity|].
  destruct (Poller_returns Sample.TrimSpace Sample.Split Sample.ParseUint
              [(SampleRun.du_reports 7, mkPath "/a" 3);
               (SampleRun.du_reports 9, mkPath "/b" 0)]
              (mkSent [] [])
              (mkSent [mkPath "/a" 0; mkPath "/b" 0] [mkState "/a" 7; mkState "/b" 9]))
    as (Ho & Hs & _); [reflexivity|].
  split; [exact Ho | exact Hs].
Defined.

Lemma Poller_first_failure_witness :
  SampleRun.Poller ([(SampleRun.du_reports 7, mkPath "/a" 0)]
                    ++ (SampleRun.du_fails, mkPath "/b" 0)
                    :: [(SampleRun.du_reports 9, mkPath "/c" 0)]) (mkSent [] [])
  = Go.Exited 1 "exit status 1".
Proof.
  exact (Poller_first_failure Sample.TrimSpace Sample.Split Sample.ParseUint
           [(SampleRun.du_reports 7, mkPath "/a" 0)]
           [(SampleRun.du_reports 9, mkPath "/c" 0)]
           SampleRun.du_fails (mkPath "/b" 0) (mkSent [] [])
           (mkSent [mkPath "/a" 0] [mkState "/a" 7])
           EmptyString "exit status 1" eq_refl eq_refl).
Defined.

Section MainProperties.

Variable TrimSpace : string → string.
Variable Split : string → string → list string.
Variable ParseUint : string → Z → Z → N * option string.

Let poll (ex : Exec) := Poll ex TrimSpace Split ParseUint.
Let turn := cycle TrimSpace Split ParseUint.
Let turns := cycles TrimSpace Split ParseUint.

(** One turn that returns: the poll returned, the table got the count
    under the path's name, the sleep took the base interval, and the path
    is pending again with count 0. *)
Lemma cycle_returned (ex : Exec) (sys : System) (o : option System) :
  mu (store (monitor sys)) = unlocked →
  turn ex sys = Go.Returned o →
  ∃ bytes,
    poll ex (pending sys) = Go.Returned (bytes, mkPath (p_path (pending sys)) 0) ∧
    o = Some (mkSystem
                (mkMonitor
                   (mkDiskStatus
                      (<[p_path (pending sys) := bytes]> (state (store (monitor sys))))
                      unlocked)
                   (logged (monitor sys)))
                (mkPath (p_path (pending sys)) 0)
                (slept sys + pollInterval)).
Proof.
  intros Hm. unfold turn, cycle.
  destruct (Poller_iter ex TrimSpace Split ParseUint (pending sys)) as [[s r']| |] eqn:Hi;
    simpl; [|done..].
  apply Poller_iter_returned in Hi as (-> & Hs & Hp).
  intros [= <-]. exists (st_bytes s). split; [exact Hp|].
  destruct sys as [[[tbl l] lg] pend sl]; simpl in *. subst l. simpl.
  by rewrite Hs.
Qed.

Lemma cycles_app (a b : list Exec) (sys : System) :
  turns (a ++ b) sys =
    turns a sys ≫= λ o, match o with
                        | Some sys' => turns b sys'
                        | None => mret None
                        end.
Proof.
  revert sys. induction a as [|ex a IH]; intros sys; [done|].
  unfold turns in *. simpl.
  destruct (cycle TrimSpace Split ParseUint ex sys) as [[sys'|]| |]; simpl;
    first [done | apply IH].
Qed.

(** What every run of turns keeps. *)
Lemma cycles_returned (exs : list Exec) (sys : System) (o : option System) :
  mu (store (monitor sys)) = unlocked →
  turns exs sys = Go.Returned o →
  ∃ sys', o = Some sys' ∧
    mu (store (monitor sys')) = unlocked ∧
    p_path (pending sys') = p_path (pending sys) ∧
    slept sys' = slept sys + Z.of_nat (length exs) * pollInterval ∧
    logged (monitor sys') = logged (monitor sys) ∧
    ∀ k, k ≠ p_path (pending sys) →
      state (store (monitor sys')) !! k = state (store (monitor sys)) !! k.
Proof.
  revert sys. induction exs as [|ex exs IH]; intros sys Hm H.
  - injection H as <-. exists sys. simpl. repeat split; try done. lia.
  - unfold turns in H. simpl in H.
    destruct (cycle TrimSpace Split ParseUint ex sys) as [o1| |] eqn:Hc;
      simpl in H; [|done..].
    apply (cycle_returned ex sys o1 Hm) in Hc as (bytes & _ & ->).
    apply IH in H as (sys' & -> & Hm' & Hp & Hs & Hl & Hk); [|done].
    simpl in *. exists sys'. split; [done|]. split; [done|]. split; [done|].
    split; [lia|]. split; [done|].
    intros k Hne. rewrite Hk by done. by rewrite lookup_insert_ne.
Qed.

(** The last turn of a run decides the entry of the path. *)
Lemma cycles_last (exs : list Exec) (ex : Exec) (sys : System) (o : option System) :
  mu (store (monitor sys)) = unlocked →
  turns (exs ++ [ex]) sys = Go.Returned o →
  ∃ sys' bytes, o = Some sys' ∧
    poll ex (mkPath (p_path (pending sys)) 0)
      = Go.Returned (bytes, mkPath (p_path (pending sys)) 0) ∧
    pending sys' = mkPath (p_path (pending sys)) 0 ∧
    mu (store (monitor sys')) = unlocked ∧
    state (store (monitor sys')) !! p_path (pending sys) = Some bytes.
Proof.
  intros Hm H. rewrite cycles_app in H.
  destruct (turns exs sys) as [o1| |] eqn:Hrun; simpl in H; [|done..].
  apply cycles_returned in Hrun as (sys1 & -> & Hm1 & Hp1 & _); [|done].
  unfold turns in H. simpl in H.
  destruct (cycle TrimSpace Split ParseUint ex sys1) as [o2| |] eqn:Hc;
    simpl in H; [|done..].
  apply (cycle_returned ex sys1 o2 Hm1) in Hc as (bytes & Hpoll & ->).
  injection H as <-. rewrite Hp1 in *.
  eexists _, bytes. split; [reflexivity|]. simpl.
  split; [|split; [done|split; [done|apply lookup_insert_eq]]].
  unfold poll in *. rewrite Poll_cases in Hpoll. rewrite Poll_cases. simpl.
  by rewrite Hp1 in Hpoll.
Qed.

(** X14: the path in circulation.  After any number of turns that all
    returned, starting as [main] does, the path is pending again under the
    configured name with error count 0, the time spent in [Sleep] is the
    base interval once per turn, and the table has no key but the
    configured path. *)
Theorem cycles_from_main (fl : Flags) (exs : list Exec) (o : option System) :
  turns exs (main_init fl) = Go.Returned o →
  ∃ sys, o = Some sys ∧
    pending sys = mkPath (path fl) 0 ∧
    slept sys = Z.of_nat (length exs) * pollInterval ∧
    dom (state (store (monitor sys))) ⊆ {[ path fl ]} ∧
    (exs ≠ [] → dom (state (store (monitor sys))) = {[ path fl ]}).
Proof.
  intros H.
  destruct (cycles_returned exs (main_init fl) o eq_refl H)
    as (sys & -> & Hm & Hp & Hs & _ & Hk).
  simpl in *. exists sys. split; [done|].
  assert (dom (state (store (monitor sys))) ⊆ {[ path fl ]}) as Hdom.
  { intros k Hin. apply elem_of_dom in Hin as [v Hv].
    destruct (decide (k = path fl)) as [->|Hne]; [by apply elem_of_singleton|].
    rewrite Hk in Hv by done. by rewrite lookup_empty in Hv. }
  destruct exs as [|ex0 exs0 _] using rev_ind.
  - injection H as <-. simpl. repeat split; try done.
  - destruct (cycles_last exs0 ex0 (main_init fl) (Some sys) eq_refl H)
      as (sys' & bytes & [= <-] & _ & Hpend & _ & Hlk).
    simpl in *. split; [done|]. split; [lia|]. split; [done|].
    intros _. apply set_eq. intros k. split; [apply Hdom|].
    intros ->%elem_of_singleton. apply elem_of_dom. by eexists.
Qed.

(** X15: the endpoint after the turns.  Once the monitor has taken the
    event of the last turn, every request is answered from the count that
    the last poll returned. *)
Theorem handler_after_cycles (fl : Flags) (exs : list Exec) (ex : Exec)
    (o : option System) (r : http.Request) :
  turns (exs ++ [ex]) (main_init fl) = Go.Returned o →
  ∃ sys bytes, o = Some sys ∧
    poll ex (mkPath (path fl) 0) = Go.Returned (bytes, mkPath (path fl) 0) ∧
    handler r (mkMemory fl (store (monitor sys)))
      = Some (respond fl bytes, mkMemory fl (store (monitor sys))).
Proof.
  intros H.
  destruct (cycles_last exs ex (main_init fl) o eq_refl H)
    as (sys & bytes & -> & Hpoll & _ & Hm & Hlk).
  simpl in *. exists sys, bytes. split; [done|]. split; [done|].
  rewrite handler_unlocked by (simpl; by rewrite Hm). simpl.
  unfold map_index. by rewrite Hlk.
Qed.

End MainProperties.

Lemma cycles_from_main_witness :
  ∃ sys, SampleRun.cycles [SampleRun.du_reports 4096; SampleRun.du_reports 5000]
           (main_init (Sample.default_flags 100 false)) = Go.Returned (Some sys) ∧
    pending sys = mkPath "/mnt/storage" 0 ∧
    slept sys = 2 * pollInterval ∧
    dom (state (store (monitor sys))) = {[ "/mnt/storage" ]}.
Proof.
  eexists. split; [reflexivity|].
  destruct (cycles_from_main Sample.TrimSpace Sample.Split Sample.ParseUint
              (Sample.default_flags 100 false)
              [SampleRun.du_reports 4096; SampleRun.du_reports 5000] _ eq_refl)
    as (sys & [= <-] & Hp & Hs & _ & Hd).
  split; [exact Hp|]. split; [exact Hs|]. by apply Hd.
Defined.

Lemma handler_after_cycles_witness :
  ∃ sys, SampleRun.cycles ([SampleRun.du_reports 50] ++ [SampleRun.du_reports 101])
           (main_init (Sample.default_flags 100 false)) = Go.Returned (Some sys) ∧
    handler Sample.request
      (mkMemory (Sample.default_flags 100 false) (store (monitor sys)))
    = Some (http.Error "ERROR: Bytes exceed threshold (101/100)" 500%N,
            mkMemory (Sample.default_flags 100 false) (store (monitor sys))).
Proof.
  eexists. split; [reflexivity|].
  destruct (handler_after_cycles Sample.TrimSpace Sample.Split Sample.ParseUint
              (Sample.default_flags 100 false)
              [SampleRun.du_reports 50] (SampleRun.du_reports 101) _
              Sample.request eq_refl)
    as (sys & bytes & [= <-] & Hpoll & Hh).
  injection Hpoll as <-. exact Hh.
Defined.

(** ** A measurement of zero *)

(** X16: a measurement of zero bytes is served as no measurement.  When
    the last event for the configured path carries 0, the endpoint answers
    503 with [Disk status not cached yet], as it does before any event,
    although the path is in the table. *)
Theorem handler_zero_measurement (r : http.Request) (fl : Flags) (m : Monitor)
    (ts : list Trigger) (pre post : list State) (e : State) :
  mu (store m) = unlocked →
  events ts = pre ++ e :: post →
  st_path e = path fl →
  st_bytes e = 0%N →
  Forall (λ s, st_path s ≠ path fl) post →
  ∃ m', monitor_run m ts = Some m' ∧
    state (store m') !! path fl = Some 0%N ∧
    handler r (mkMemory fl (store m'))
      = Some (http.Error "Disk status not cached yet" 503%N,
              mkMemory fl (store m')).
Proof.
  intros Hm Hev He Hz Hpost.
  destruct (monitor_run_lookup ts m Hm) as (m' & Hrun & Hm' & Hlk).
  exists m'. split; [exact Hrun|].
  assert (state (store m') !! path fl = Some 0%N) as H0.
  { by rewrite Hlk, Hev, (last_event_latest _ _ _ _ He Hpost), Hz. }
  split; [exact H0|].
  rewrite handler_unlocked by (simpl; by rewrite Hm'). simpl.
  unfold map_index. by rewrite H0.
Qed.

Lemma handler_zero_measurement_witness :
  ∃ m', monitor_run monitor_init
          [Update (mkState "/mnt/storage" 4096); Update (mkState "/mnt/storage" 0)]
          = Some m' ∧
    state (store m') !! "/mnt/storage" = Some 0%N ∧
    handler Sample.request (mkMemory (Sample.default_flags 100 false) (store m'))
      = Some (http.Error "Disk status not cached yet" 503%N,
              mkMemory (Sample.default_flags 100 false) (store m')).
Proof.
  apply (handler_zero_measurement Sample.request (Sample.default_flags 100 false)
           monitor_init
           [Update (mkState "/mnt/storage" 4096); Update (mkState "/mnt/storage" 0)]
           [mkState "/mnt/storage" 4096] [] (mkState "/mnt/storage" 0));
    [reflexivity | reflexivity | reflexivity | reflexivity | apply Forall_nil_2].
Defined.
